(** * Countdown: a shallow embedding of [src/Countdown.jsx]

    The widget counts down to a fixed timestamp.  It is made of three pure
    helpers ([calculateRemainingSeconds], [calculateTimeDifference],
    [formatDeltaTimeAsString]) and a React function component whose two
    event handlers ([tick], [togglePaused]) drive a three-state machine.

    Numbers.  Timestamps are unix epochs in milliseconds, i.e. integers;
    they are embedded as [Z].  [Math.floor (x / k)] for a positive
    constant [k] is [Z.div], which rounds towards minus infinity.
    [Date.now ()] is an input: the pure helpers take it as an explicit
    first argument and the handlers read it from their environment. *)

From Stdlib Require Import ZArith List String Ascii Bool Lia.
From Stdlib Require Import DecimalString DecimalPos DecimalZ.
From Stdlib Require Import PrimFloat Uint63.
Import ListNotations.

Set Warnings "-inexact-float".

Local Open Scope string_scope.
Local Open Scope Z_scope.

(** ** The fragment of JavaScript values the formatter computes with *)

Module JS.

(** [formatDeltaTimeAsString] keeps numbers and strings in the same
    variables and joins them with [+], so both kinds of value and the
    overloading of [+] are modelled. *)
Inductive value : Type :=
| VNum (z : Z)
| VStr (s : string).

(** [Number.prototype.toString] on an integer: the decimal numeral, with
    a leading minus sign for negative numbers.  (JavaScript changes to
    exponent notation from 10^21 on; the numbers printed here are counts
    of hours, minutes and seconds taken from millisecond timestamps.) *)
Definition numberToString (z : Z) : string :=
  NilZero.string_of_int (Z.to_int z).

Definition toString (v : value) : string :=
  match v with
  | VNum z => numberToString z
  | VStr s => s
  end.

(** The binary [+]: numeric addition on two numbers, string
    concatenation as soon as one operand is a string. *)
Definition add (a b : value) : value :=
  match a, b with
  | VNum x, VNum y => VNum (x + y)
  | _, _ => VStr (toString a ++ toString b)
  end.

End JS.

Declare Scope js_scope.
Delimit Scope js_scope with js.
Notation "a +' b" := (JS.add a b) (at level 50, left associativity) : js_scope.

(** ** Data model *)

Inductive CountdownState : Type :=
| RUNNING
| PAUSED
| TIMEDOUT.

Definition CountdownState_eqb (a b : CountdownState) : bool :=
  match a, b with
  | RUNNING, RUNNING | PAUSED, PAUSED | TIMEDOUT, TIMEDOUT => true
  | _, _ => false
  end.

Record Delta : Type := mkDelta {
  hours : Z;
  minutes : Z;
  seconds : Z
}.

(** ** The pure helpers *)

(** [const diff = endTimestamp - Date.now();
     return diff > 0 ? Math.floor(diff / 1000) : -1;] *)
Definition calculateRemainingSeconds (now endTimestamp : Z) : Z :=
  let diff := endTimestamp - now in
  if 0 <? diff then diff / 1000 else -1.

(** The source fills a mutable object field by field and decrements the
    local [seconds] in place; the [let]s below follow it line by line. *)
Definition calculateTimeDifference (startTimestamp endTimestamp : Z) : Delta :=
  let delta := mkDelta 0 0 0 in
  if endTimestamp <? startTimestamp then delta
  else
    let deltaInMillis := Z.abs (startTimestamp - endTimestamp) in
    let seconds0 := deltaInMillis / 1000 in
    let h := seconds0 / 3600 in
    let seconds1 := seconds0 - h * 3600 in
    let m := seconds1 / 60 in
    let seconds2 := seconds1 - m * 60 in
    mkDelta h m seconds2.

(** [x < 10 ? '0' + x : x], the expression used for each of the fields. *)
Definition fieldString (x : Z) : JS.value :=
  if x <? 10 then (JS.VStr "0" +' JS.VNum x)%js else JS.VNum x.

Definition formatDeltaTimeAsString (delta : Delta) : JS.value :=
  let hoursString := fieldString (hours delta) in
  let minutesString := fieldString (minutes delta) in
  let secondsString := fieldString (seconds delta) in
  if 0 <? hours delta then
    (hoursString +' JS.VStr ":" +' minutesString +' JS.VStr ":" +' secondsString)%js
  else
    (minutesString +' JS.VStr ":" +' secondsString)%js.

(** ** The component

    [Countdown] holds two [useState] cells and is given two props.  The
    second prop is optional; the callback itself is foreign code.  What
    the component can observe of it is whether a call returns or throws,
    so a callback is a name together with the outcome of each of its
    calls: [throws f n] tells whether the call made after [n] earlier
    ones throws.  Calling it is recorded in a log. *)

Record Callback : Type := mkCallback {
  callbackId : nat;
  throws : nat -> bool
}.

(** A callback all of whose calls return. *)
Definition ForeignFunction (id : nat) : Callback :=
  mkCallback id (fun _ => false).

Record Props : Type := mkProps {
  endTimestamp : Z;
  onTimedOut : option Callback
}.

Record Hooks : Type := mkHooks {
  countdownState : CountdownState;
  remainingSeconds : Z
}.

(** What a handler can touch: the hook cells and the outside world, of
    which only the sequence of callback invocations matters here (most
    recent last). *)
Record World : Type := mkWorld {
  hooks : Hooks;
  invoked : list Callback
}.

(** A statement completes normally, with a value, or abruptly, by an
    exception that nothing in the component catches. *)
Inductive Completion (A : Type) : Type :=
| Normal (a : A)
| Throw.

Arguments Normal {A} a.
Arguments Throw {A}.

(** Handlers are straight-line imperative code: a state monad over
    [World] that can also read the clock.  An abrupt completion skips
    the rest of the handler; what was written before it stays written. *)
Definition Handler (A : Type) : Type := Z -> World -> Completion A * World.

Definition ret {A : Type} (a : A) : Handler A :=
  fun _ w => (Normal a, w).

Definition bind {A B : Type} (m : Handler A) (k : A -> Handler B) : Handler B :=
  fun clock w =>
    match m clock w with
    | (Normal a, w') => k a clock w'
    | (Throw, w') => (Throw, w')
    end.

Notation "x <- m ;; k" := (bind m (fun x => k))
  (at level 61, m at next level, right associativity).
Notation "m ;; k" := (bind m (fun _ => k))
  (at level 61, right associativity).

Definition Date_now : Handler Z :=
  fun clock w => (Normal clock, w).

Definition setCountdownState (s : CountdownState) : Handler unit :=
  fun _ w =>
    (Normal tt, mkWorld (mkHooks s (remainingSeconds (hooks w))) (invoked w)).

Definition setRemainingSeconds (r : Z) : Handler unit :=
  fun _ w =>
    (Normal tt, mkWorld (mkHooks (countdownState (hooks w)) r) (invoked w)).

(** [f()]: the call is made, and then returns or throws. *)
Definition call (f : Callback) : Handler unit :=
  fun _ w =>
    (if throws f (List.length (invoked w)) then Throw else Normal tt,
     mkWorld (hooks w) (invoked w ++ [f])).

Definition exec {A : Type} (m : Handler A) (clock : Z) (w : World) : World :=
  snd (m clock w).

(** [calculateRemainingSeconds] as the handlers use it, reading the clock. *)
Definition remainingSecondsNow (endTimestamp : Z) : Handler Z :=
  now <- Date_now ;;
  ret (calculateRemainingSeconds now endTimestamp).

(** [tick] and [togglePaused] are closures created by a render: the
    [countdownState] they test is the value of the cell at that render,
    passed here as [current]; their writes go to the cells. *)
Definition tick (props : Props) (current : CountdownState) : Handler unit :=
  if CountdownState_eqb current RUNNING then
    remainder <- remainingSecondsNow (endTimestamp props) ;;
    setRemainingSeconds remainder ;;
    if remainder <? 0 then
      match onTimedOut props with
      | Some f => call f
      | None => ret tt
      end ;;
      setCountdownState TIMEDOUT
    else ret tt
  else ret tt.

Definition togglePaused (current : CountdownState) : Handler unit :=
  if CountdownState_eqb current PAUSED then setCountdownState RUNNING
  else if CountdownState_eqb current RUNNING then setCountdownState PAUSED
  else ret tt.

(** ** The state machine

    The effect that installs the interval has no dependency list, so it is
    torn down and installed again after every render: the closure run by
    the timer, like the one bound to the button, always belongs to the
    latest render, and [current] is the present value of the cell.  An
    event is handled at some instant, which it carries. *)

Inductive Event : Type :=
| Tick (now : Z)
| Click (now : Z).

Definition mount (props : Props) (now : Z) : World :=
  mkWorld (mkHooks RUNNING (calculateRemainingSeconds now (endTimestamp props))) [].

Definition step (props : Props) (w : World) (e : Event) : World :=
  match e with
  | Tick now => exec (tick props (countdownState (hooks w))) now w
  | Click now => exec (togglePaused (countdownState (hooks w))) now w
  end.

Definition run (props : Props) (w : World) (trace : list Event) : World :=
  fold_left (step props) trace w.

Definition stateOf (w : World) : CountdownState :=
  countdownState (hooks w).

(** ** Rendering

    The body of [Countdown] after the hooks: what is put on the page for
    given props, cells, clock and browser language.  The two
    [Date.prototype.toLocale...String] methods belong to the host and are
    parameters. *)

Record View : Type := mkView {
  titling : string;
  timer : JS.value;
  subtitle : string * string;
  button : string
}.

Section Rendering.

Variable toLocaleDateString : string -> Z -> string.
Variable toLocaleTimeString : Z -> string.

Definition Countdown (props : Props) (cells : Hooks) (now : Z) (lang : string) : View :=
  let isPaused := CountdownState_eqb (countdownState cells) PAUSED in
  let delta := calculateTimeDifference now (endTimestamp props) in
  let endDate := endTimestamp props in
  let '(testTitlingString, testEndString, endDateString) :=
    if String.prefix "de" lang then
      ("Restliche Testzeit", "Dieser Test endet am",
       toLocaleDateString "de-de" endDate ++ " um " ++ toLocaleTimeString endDate ++ " Uhr")
    else
      ("Remaining test time", "This test ends on",
       toLocaleDateString "en-us" endDate ++ " at " ++ toLocaleTimeString endDate) in
  mkView testTitlingString
         (formatDeltaTimeAsString delta)
         (testEndString, endDateString)
         ((if isPaused then "Resume" else "Pause") ++ " this!").

End Rendering.

(** ** Reference definitions, written from the description of the widget

    These are not taken from the code; the code is compared with them. *)

(** A field "zero-padded to two digits": its decimal numeral, with a
    ['0'] put in front when the numeral is shorter than two characters. *)
Definition zeroPad2 (n : Z) : string :=
  let numeral := JS.numberToString n in
  if (String.length numeral <? 2)%nat then "0" ++ numeral else numeral.

(** ['HH:MM:SS'] when hours are positive, ['MM:SS'] otherwise. *)
Definition clockFace (d : Delta) : string :=
  if 0 <? hours d then
    zeroPad2 (hours d) ++ ":" ++ zeroPad2 (minutes d) ++ ":" ++ zeroPad2 (seconds d)
  else
    zeroPad2 (minutes d) ++ ":" ++ zeroPad2 (seconds d).

(** The character of a decimal digit, and the two-character numeral of a
    number below one hundred. *)
Definition digitChar (d : Z) : ascii :=
  ascii_of_nat (48 + Z.to_nat d).

Definition twoDigits (n : Z) : string :=
  String (digitChar (n / 10)) (String (digitChar (n mod 10)) "").

(** The user's control, as a function on states. *)
Definition toggled (s : CountdownState) : CountdownState :=
  match s with
  | RUNNING => PAUSED
  | PAUSED => RUNNING
  | TIMEDOUT => TIMEDOUT
  end.

(** The callbacks a props record makes available: one or none. *)
Definition provided (props : Props) : list Callback :=
  match onTimedOut props with
  | Some f => [f]
  | None => []
  end.

(** Whether the call of the callback that a tick would make in world
    [w] returns; with no callback there is no call and nothing to throw. *)
Definition callReturns (props : Props) (w : World) : bool :=
  match onTimedOut props with
  | Some f => negb (throws f (List.length (invoked w)))
  | None => true
  end.

(** The shape of the log while the countdown has not timed out: every
    call made so far threw. *)
Definition failedCalls (props : Props) (w : World) : Prop :=
  match onTimedOut props with
  | Some f => exists n : nat,
      invoked w = repeat f n /\
      (forall i, (i < n)%nat -> throws f i = true)
  | None => invoked w = []
  end.

(** The shape of the log once it has: the last call returned, every
    earlier one threw. *)
Definition settledCalls (props : Props) (w : World) : Prop :=
  match onTimedOut props with
  | Some f => exists n : nat,
      invoked w = repeat f (S n) /\
      (forall i, (i < n)%nat -> throws f i = true) /\
      throws f n = false
  | None => invoked w = []
  end.

(** Whether a step reaches the test [remainder < 0] and finds it true:
    a tick taken while RUNNING with negative remaining seconds. *)
Definition attempts (props : Props) (w : World) (e : Event) : bool :=
  match e with
  | Tick now =>
      CountdownState_eqb (countdownState (hooks w)) RUNNING
      && (calculateRemainingSeconds now (endTimestamp props) <? 0)
  | Click _ => false
  end.

(** Checking a decidable property on every integer of [0 .. k-1]. *)
Definition below (k : nat) (P : Z -> bool) : bool :=
  forallb P (map Z.of_nat (seq 0 k)).

(** ** The interval and its life cycle

    [useEffect] is given no dependency list: after every committed render
    the cleanup returned by the previous run is called, then the effect
    runs again.  The effect installs an interval whose callback calls the
    [tick] of that render; its cleanup clears the interval it installed.
    The host's table of intervals keeps, for each live one, its id, the
    [countdownState] its callback closed over, and its period. *)

Record Interval : Type := mkInterval {
  timerId : nat;
  closedOver : CountdownState;
  period : Z
}.

Record Timers : Type := mkTimers {
  nextTimer : nat;
  live : list Interval
}.

Definition setInterval (current : CountdownState) (ms : Z) (h : Timers) : nat * Timers :=
  (nextTimer h,
   mkTimers (S (nextTimer h)) (mkInterval (nextTimer h) current ms :: live h)).

Definition clearInterval (timer : nat) (h : Timers) : Timers :=
  mkTimers (nextTimer h)
           (filter (fun i => negb (Nat.eqb (timerId i) timer)) (live h)).

(** A mounted component: its cells and the calls it made, the
    [countdownState] seen by the latest committed render (the one the
    button's [togglePaused] closed over), the [timer] held by the pending
    cleanup, and the host's intervals. *)
Record Mounted : Type := mkMounted {
  world : World;
  rendered : CountdownState;
  cleanup : option nat;
  host : Timers
}.

(** [const timer = setInterval(() => { tick(); }, 1000);
     return () => clearInterval(timer);] run for a new render, after the
    cleanup of the previous one. *)
Definition commit (w : World) (pending : option nat) (h : Timers) : Mounted :=
  let h1 := match pending with
            | Some timer => clearInterval timer h
            | None => h
            end in
  let (timer, h2) := setInterval (stateOf w) 1000 h1 in
  mkMounted w (stateOf w) (Some timer) h2.

Definition Hooks_eqb (a b : Hooks) : bool :=
  CountdownState_eqb (countdownState a) (countdownState b)
  && (remainingSeconds a =? remainingSeconds b).

(** The writes of one handler are committed together.  After a handler
    has run the component renders again when a cell has changed; when
    none has, the library may skip the render, which [again] decides. *)
Definition settle (m : Mounted) (w' : World) (again : bool) : Mounted :=
  if Hooks_eqb (hooks (world m)) (hooks w') && negb again
  then mkMounted w' (rendered m) (cleanup m) (host m)
  else commit w' (cleanup m) (host m).

Inductive Happening : Type :=
| Fire (timer : nat) (now : Z) (again : bool)
| Press (now : Z) (again : bool).

(** An interval that is no longer live does not fire. *)
Definition happen (props : Props) (m : Mounted) (h : Happening) : Mounted :=
  match h with
  | Fire timer now again =>
      match find (fun i => Nat.eqb (timerId i) timer) (live (host m)) with
      | Some i => settle m (exec (tick props (closedOver i)) now (world m)) again
      | None => m
      end
  | Press now again =>
      settle m (exec (togglePaused (rendered m)) now (world m)) again
  end.

Definition mountCountdown (props : Props) (now : Z) (firstTimer : nat) : Mounted :=
  commit (mount props now) None (mkTimers firstTimer []).

Definition unmount (m : Mounted) : Mounted :=
  mkMounted (world m) (rendered m) None
            match cleanup m with
            | Some timer => clearInterval timer (host m)
            | None => host m
            end.

Definition lifetime (props : Props) (m : Mounted) (l : list Happening) : Mounted :=
  fold_left (happen props) l m.

(** The component owns exactly one live interval: the one its pending
    cleanup will clear, whose callback closed over the present state,
    which is also the state the latest render saw. *)
Definition tidy (m : Mounted) : Prop :=
  exists timer : nat,
    cleanup m = Some timer /\
    live (host m) = [mkInterval timer (stateOf (world m)) 1000] /\
    rendered m = stateOf (world m) /\
    (timer < nextTimer (host m))%nat.

(** ** The application

    [src/App.js] holds two texts of [App].  Both give the widget no
    callback and a target a fixed time after the instant [App] is
    rendered, which [new Date().getTime()] reads. *)

(** The offset of the first text, [42.002*3600*1000], is a product of
    doubles, evaluated from the left. *)
Definition functionAppOffset : PrimFloat.float :=
  (42.002 * 3600 * 1000)%float.

(** [function App()]: the product above is exactly the integer
    151207200 (42 h 0 min 7.2 s), which [functionAppOffset_integral]
    checks on the doubles. *)
Module FunctionApp.

Definition App (getTime : Z) : Props :=
  mkProps (getTime + 151207200) None.

End FunctionApp.

(** [const App = () => ...]: 42 seconds. *)
Module ArrowApp.

Definition App (getTime : Z) : Props :=
  mkProps (getTime + 42000) None.

End ArrowApp.

(** ** Auxiliary functions used in statements *)

Definition totalSeconds (d : Delta) : Z :=
  hours d * 3600 + minutes d * 60 + seconds d.

Definition inRange (d : Delta) : Prop :=
  0 <= hours d /\ 0 <= minutes d <= 59 /\ 0 <= seconds d <= 59.

Definition isTick (e : Event) : bool :=
  match e with
  | Tick _ => true
  | Click _ => false
  end.

(** * Properties *)

(** ** The definitions at work *)

Example remaining_42s : calculateRemainingSeconds 1000 43000 = 42.
Proof. reflexivity. Qed.

Example difference_1h_2m_3s :
  calculateTimeDifference 0 3723999 = mkDelta 1 2 3.
Proof. reflexivity. Qed.

Example field_below_ten : fieldString 7 = JS.VStr "07".
Proof. reflexivity. Qed.

Example field_from_ten : fieldString 12 = JS.VNum 12.
Proof. reflexivity. Qed.

Example format_long : formatDeltaTimeAsString (mkDelta 123 4 56) = JS.VStr "123:04:56".
Proof. reflexivity. Qed.

Example past_target_times_out_on_first_tick :
  run (mkProps 1000 (Some (ForeignFunction 0)))
      (mount (mkProps 1000 (Some (ForeignFunction 0))) 5000)
      [Tick 6000]
  = mkWorld (mkHooks TIMEDOUT (-1)) [ForeignFunction 0].
Proof. reflexivity. Qed.

(** ** Arithmetic of the two calculators *)

Lemma calculateRemainingSeconds_future (now target : Z) :
  now < target ->
  calculateRemainingSeconds now target = (target - now) / 1000.
Proof.
  intros H. unfold calculateRemainingSeconds. cbv zeta.
  destruct (Z.ltb_spec 0 (target - now)); [reflexivity | lia].
Qed.

Lemma calculateRemainingSeconds_past (now target : Z) :
  target <= now ->
  calculateRemainingSeconds now target = -1.
Proof.
  intros H. unfold calculateRemainingSeconds. cbv zeta.
  destruct (Z.ltb_spec 0 (target - now)); [lia | reflexivity].
Qed.

Lemma calculateRemainingSeconds_negative (now target : Z) :
  calculateRemainingSeconds now target < 0 <-> target <= now.
Proof.
  split; intros H.
  - destruct (Z.le_gt_cases target now) as [Hle | Hgt]; [exact Hle |].
    rewrite calculateRemainingSeconds_future in H by lia.
    assert (0 <= (target - now) / 1000) by (apply Z.div_pos; lia). lia.
  - rewrite calculateRemainingSeconds_past by exact H. lia.
Qed.

(** When the start is not after the end, the three fields are the
    quotient and remainders of the whole seconds in between. *)
Lemma calculateTimeDifference_fields (start target : Z) :
  start <= target ->
  let total := (target - start) / 1000 in
  calculateTimeDifference start target =
    mkDelta (total / 3600) ((total mod 3600) / 60) ((total mod 3600) mod 60).
Proof.
  intros H total. unfold calculateTimeDifference. cbv zeta.
  destruct (Z.ltb_spec target start) as [Hlt | _]; [lia |].
  replace (Z.abs (start - target)) with (target - start) by lia.
  fold total.
  assert (E1 : total - total / 3600 * 3600 = total mod 3600).
  { rewrite Z.mod_eq by lia. ring. }
  rewrite E1.
  assert (E2 : total mod 3600 - total mod 3600 / 60 * 60 = (total mod 3600) mod 60).
  { rewrite (Z.mod_eq (total mod 3600) 60) by lia. ring. }
  rewrite E2. reflexivity.
Qed.

Lemma calculateTimeDifference_past (start target : Z) :
  target < start ->
  calculateTimeDifference start target = mkDelta 0 0 0.
Proof.
  intros H. unfold calculateTimeDifference. cbv zeta.
  destruct (Z.ltb_spec target start); [reflexivity | lia].
Qed.

(** C1. For timestamps [now <= target], the delta returned by
    [calculateTimeDifference now target] adds up to the whole seconds
    between them: hours*3600 + minutes*60 + seconds =
    floor ((target - now) / 1000). *)
Theorem calculateTimeDifference_total_seconds (now target : Z) :
  now <= target ->
  let d := calculateTimeDifference now target in
  hours d * 3600 + minutes d * 60 + seconds d = (target - now) / 1000.
Proof.
  intros H d. subst d.
  rewrite (calculateTimeDifference_fields now target H). cbn.
  set (total := (target - now) / 1000).
  pose proof (Z.div_mod total 3600 ltac:(lia)) as D1.
  pose proof (Z.div_mod (total mod 3600) 60 ltac:(lia)) as D2.
  lia.
Qed.

Lemma calculateTimeDifference_total_seconds_witness :
  0 <= 3723999 /\
  hours (calculateTimeDifference 0 3723999) * 3600
  + minutes (calculateTimeDifference 0 3723999) * 60
  + seconds (calculateTimeDifference 0 3723999) = 3723.
Proof.
  split; [lia |].
  exact (calculateTimeDifference_total_seconds 0 3723999 ltac:(lia)).
Defined.

(** C3. Whenever [target < now], [calculateRemainingSeconds] evaluated at
    that [now] returns the sentinel -1. *)
Theorem calculateRemainingSeconds_passed (now target : Z) :
  target < now ->
  calculateRemainingSeconds now target = -1.
Proof.
  intros H. apply calculateRemainingSeconds_past. lia.
Qed.

Lemma calculateRemainingSeconds_passed_witness :
  1000 < 6000 /\ calculateRemainingSeconds 6000 1000 = -1.
Proof.
  split; [lia |].
  exact (calculateRemainingSeconds_passed 6000 1000 ltac:(lia)).
Defined.

(** C5. For every pair of timestamps, with no precondition, the delta
    returned by [calculateTimeDifference] has non-negative hours, minutes
    in 0..59 and seconds in 0..59; and when the start instant is past the
    end ([start > target]) the delta is all-zero. *)
Theorem calculateTimeDifference_in_range (start target : Z) :
  let d := calculateTimeDifference start target in
  0 <= hours d /\
  0 <= minutes d <= 59 /\
  0 <= seconds d <= 59 /\
  (start > target -> d = mkDelta 0 0 0).
Proof.
  intros d. subst d.
  destruct (Z.le_gt_cases start target) as [Hle | Hgt].
  - rewrite (calculateTimeDifference_fields start target Hle). cbn.
    set (total := (target - start) / 1000).
    assert (0 <= total) by (apply Z.div_pos; lia).
    pose proof (Z.mod_pos_bound total 3600 ltac:(lia)) as B1.
    pose proof (Z.mod_pos_bound (total mod 3600) 60 ltac:(lia)) as B2.
    repeat split; try lia.
    + apply Z.div_pos; lia.
    + apply Z.div_pos; lia.
    + assert (total mod 3600 / 60 < 60) by (apply Z.div_lt_upper_bound; lia). lia.
  - rewrite (calculateTimeDifference_past start target Hgt). cbn.
    repeat split; lia.
Qed.

Lemma calculateTimeDifference_in_range_witness :
  5000 > 1000 /\ calculateTimeDifference 5000 1000 = mkDelta 0 0 0.
Proof.
  assert (H : 5000 > 1000) by lia.
  split; [exact H |].
  destruct (calculateTimeDifference_in_range 5000 1000) as [_ [_ [_ Hzero]]].
  exact (Hzero H).
Defined.

(** C10. [calculateRemainingSeconds] returns -1 if and only if
    [target <= now]; so it already returns -1 when the target equals the
    current instant, -1 is the only negative value it returns, and for
    [0 < target - now < 1000] it returns 0. *)
Theorem calculateRemainingSeconds_sentinel (now target : Z) :
  let r := calculateRemainingSeconds now target in
  (r = -1 <-> target <= now) /\
  (target = now -> r = -1) /\
  (r < 0 -> r = -1) /\
  (0 < target - now < 1000 -> r = 0).
Proof.
  intros r. subst r. repeat split.
  - intros H. apply calculateRemainingSeconds_negative. lia.
  - apply calculateRemainingSeconds_past.
  - intros ->. apply calculateRemainingSeconds_past. lia.
  - intros H. apply calculateRemainingSeconds_past.
    apply calculateRemainingSeconds_negative. exact H.
  - intros H. rewrite calculateRemainingSeconds_future by lia.
    apply Z.div_small. lia.
Qed.

Lemma calculateRemainingSeconds_sentinel_witness :
  calculateRemainingSeconds 7000 7000 = -1 /\
  calculateRemainingSeconds 7000 7999 = 0.
Proof.
  split.
  - destruct (calculateRemainingSeconds_sentinel 7000 7000) as [_ [Hnow _]].
    exact (Hnow eq_refl).
  - destruct (calculateRemainingSeconds_sentinel 7000 7999) as [_ [_ [_ Hsub]]].
    apply Hsub. lia.
Defined.

(** ** Decimal numerals *)

Lemma below_spec (k : nat) (P : Z -> bool) :
  below k P = true ->
  forall n, 0 <= n < Z.of_nat k -> P n = true.
Proof.
  unfold below. intros H n Hn.
  rewrite forallb_forall in H. apply H.
  apply in_map_iff. exists (Z.to_nat n). split; [lia |].
  apply in_seq. lia.
Qed.

Lemma string_of_uint_length (d : Decimal.uint) :
  String.length (NilEmpty.string_of_uint d) = Decimal.nb_digits d.
Proof.
  induction d; simpl; congruence.
Qed.

Lemma numberToString_pos_length (p : positive) :
  String.length (JS.numberToString (Z.pos p)) = Decimal.nb_digits (Pos.to_uint p).
Proof.
  unfold JS.numberToString. simpl.
  pose proof (Unsigned.to_uint_nonnil p) as Hne.
  destruct (Pos.to_uint p) eqn:E; [congruence | ..];
    unfold NilZero.string_of_uint; apply string_of_uint_length.
Qed.

(** A numeral of at most [k] digits denotes a number below [10 ^ k];
    shown for one and two digits from the library's inverse of
    [Pos.to_uint]. *)
Lemma one_digit_small (p : positive) :
  (Decimal.nb_digits (Pos.to_uint p) <= 1)%nat -> Z.pos p < 10.
Proof.
  intros H. pose proof (DecimalPos.Unsigned.of_to p) as E.
  destruct (Pos.to_uint p) as [|d|d|d|d|d|d|d|d|d|d];
    try (destruct d; simpl in H; try lia; simpl in E; inversion E; lia).
  simpl in E. discriminate.
Qed.

Lemma two_digits_small (p : positive) :
  (Decimal.nb_digits (Pos.to_uint p) <= 2)%nat -> Z.pos p < 100.
Proof.
  intros H. pose proof (DecimalPos.Unsigned.of_to p) as E.
  destruct (Pos.to_uint p) as [|d|d|d|d|d|d|d|d|d|d];
    try discriminate E;
    destruct d as [|d|d|d|d|d|d|d|d|d|d];
    try discriminate E;
    try (inversion E; lia);
    destruct d; simpl in H; try lia;
    try discriminate E; inversion E; lia.
Qed.

Lemma numberToString_length_ge (n : Z) :
  (10 <= n -> (2 <= String.length (JS.numberToString n))%nat) /\
  (100 <= n -> (3 <= String.length (JS.numberToString n))%nat).
Proof.
  destruct n as [|p|p]; try lia.
  rewrite numberToString_pos_length.
  pose proof (one_digit_small p). pose proof (two_digits_small p).
  split; intros; lia.
Qed.

Lemma zeroPad2_below_100 (n : Z) :
  0 <= n < 100 -> zeroPad2 n = twoDigits n.
Proof.
  intros H.
  apply String.eqb_eq.
  apply (below_spec 100 (fun k => String.eqb (zeroPad2 k) (twoDigits k)));
    [vm_compute; reflexivity | lia].
Qed.

Lemma zeroPad2_from_100 (n : Z) :
  100 <= n ->
  zeroPad2 n = JS.numberToString n /\ (3 <= String.length (zeroPad2 n))%nat.
Proof.
  intros H. destruct (numberToString_length_ge n) as [_ H3].
  specialize (H3 H). unfold zeroPad2. cbv zeta.
  destruct (Nat.ltb_spec (String.length (JS.numberToString n)) 2); [lia |].
  split; [reflexivity | exact H3].
Qed.

(** ** The formatter *)

Lemma add_string_r (a : JS.value) (s : string) :
  (a +' JS.VStr s)%js = JS.VStr (JS.toString a ++ s).
Proof.
  destruct a; reflexivity.
Qed.

Lemma add_string_l (s : string) (b : JS.value) :
  (JS.VStr s +' b)%js = JS.VStr (s ++ JS.toString b).
Proof.
  destruct b; reflexivity.
Qed.

(** The test [x < 10] of the code and the length test of the reference
    agree on every non-negative field. *)
Lemma fieldString_zeroPad2 (n : Z) :
  0 <= n -> JS.toString (fieldString n) = zeroPad2 n.
Proof.
  intros H. unfold fieldString.
  destruct (Z.ltb_spec n 10) as [Hlt | Hge].
  - rewrite add_string_l. cbn [JS.toString].
    apply String.eqb_eq.
    apply (below_spec 10 (fun k => String.eqb ("0" ++ JS.numberToString k) (zeroPad2 k)));
      [vm_compute; reflexivity | lia].
  - cbn [JS.toString].
    destruct (numberToString_length_ge n) as [H2 _]. specialize (H2 Hge).
    unfold zeroPad2. cbv zeta.
    destruct (Nat.ltb_spec (String.length (JS.numberToString n)) 2); [lia | reflexivity].
Qed.

Lemma append_assoc (a b c : string) : (a ++ b) ++ c = a ++ (b ++ c).
Proof.
  induction a as [| ch a IH]; simpl; [reflexivity | now rewrite IH].
Qed.

Lemma formatDeltaTimeAsString_clockFace (d : Delta) :
  0 <= hours d -> 0 <= minutes d -> 0 <= seconds d ->
  formatDeltaTimeAsString d = JS.VStr (clockFace d).
Proof.
  intros Hh Hm Hs. unfold formatDeltaTimeAsString, clockFace. cbv zeta.
  destruct (0 <? hours d).
  - rewrite (add_string_r (fieldString (hours d))).
    rewrite !add_string_l. cbn [JS.toString].
    rewrite !fieldString_zeroPad2 by assumption.
    now rewrite !append_assoc.
  - rewrite add_string_r, add_string_l.
    rewrite !fieldString_zeroPad2 by assumption.
    now rewrite !append_assoc.
Qed.

(** C4. For a delta with [hours >= 0], [0 <= minutes <= 59] and
    [0 <= seconds <= 59], [formatDeltaTimeAsString] zero-pads each field
    to two digits and leaves the hours out exactly when they are zero:
    the result is HH:MM:SS for positive hours and MM:SS otherwise.
    Minutes and seconds are always two digits; so are hours below 100,
    larger hours being printed in full.  In particular the delta
    (0,5,9) gives 05:09 and the delta (2,0,1) gives 02:00:01. *)
Theorem formatDeltaTimeAsString_zero_padded (d : Delta) :
  0 <= hours d -> 0 <= minutes d <= 59 -> 0 <= seconds d <= 59 ->
  formatDeltaTimeAsString d = JS.VStr (clockFace d) /\
  (0 < hours d ->
     clockFace d = zeroPad2 (hours d) ++ ":" ++ twoDigits (minutes d)
                                      ++ ":" ++ twoDigits (seconds d)) /\
  (hours d = 0 ->
     clockFace d = twoDigits (minutes d) ++ ":" ++ twoDigits (seconds d)) /\
  (hours d < 100 -> zeroPad2 (hours d) = twoDigits (hours d)) /\
  (100 <= hours d ->
     zeroPad2 (hours d) = JS.numberToString (hours d) /\
     (3 <= String.length (zeroPad2 (hours d)))%nat) /\
  formatDeltaTimeAsString (mkDelta 0 5 9) = JS.VStr "05:09" /\
  formatDeltaTimeAsString (mkDelta 2 0 1) = JS.VStr "02:00:01".
Proof.
  intros Hh Hm Hs.
  split; [apply formatDeltaTimeAsString_clockFace; lia |].
  unfold clockFace.
  rewrite (zeroPad2_below_100 (minutes d)) by lia.
  rewrite (zeroPad2_below_100 (seconds d)) by lia.
  split; [| split; [| split; [| split; [| split]]]].
  - intros H. destruct (Z.ltb_spec 0 (hours d)); [reflexivity | lia].
  - intros H. destruct (Z.ltb_spec 0 (hours d)); [lia | reflexivity].
  - intros H. apply zeroPad2_below_100. lia.
  - apply zeroPad2_from_100.
  - reflexivity.
  - reflexivity.
Qed.

Lemma formatDeltaTimeAsString_zero_padded_witness :
  formatDeltaTimeAsString (mkDelta 7 30 4) = JS.VStr "07:30:04".
Proof.
  pose proof (formatDeltaTimeAsString_zero_padded (mkDelta 7 30 4)
                ltac:(simpl; lia) ltac:(simpl; lia) ltac:(simpl; lia))
    as [E [Hpos [_ [Hsmall _]]]].
  rewrite E, (Hpos ltac:(simpl; lia)), (Hsmall ltac:(simpl; lia)).
  reflexivity.
Defined.

(** ** One step of the machine *)

Lemma step_click (props : Props) (w : World) (t : Z) :
  step props w (Click t) =
    mkWorld (mkHooks (toggled (stateOf w)) (remainingSeconds (hooks w))) (invoked w).
Proof.
  destruct w as [[s r] log]. destruct s; reflexivity.
Qed.

Lemma step_tick_idle (props : Props) (w : World) (now : Z) :
  stateOf w <> RUNNING -> step props w (Tick now) = w.
Proof.
  destruct w as [[s r] log]. destruct s; cbn; intros H;
    [congruence | reflexivity | reflexivity].
Qed.

Lemma step_tick_running (props : Props) (w : World) (now : Z) :
  stateOf w = RUNNING ->
  let remainder := calculateRemainingSeconds now (endTimestamp props) in
  step props w (Tick now) =
    if remainder <? 0
    then mkWorld (mkHooks (if callReturns props w then TIMEDOUT else RUNNING)
                          remainder)
                 (invoked w ++ provided props)
    else mkWorld (mkHooks RUNNING remainder) (invoked w).
Proof.
  destruct w as [[s r] log]. cbn. intros ->.
  unfold step, exec, tick, provided, callReturns, bind, remainingSecondsNow,
    bind, Date_now, ret, setRemainingSeconds, setCountdownState, call.
  cbn.
  destruct (calculateRemainingSeconds now (endTimestamp props) <? 0).
  - destruct (onTimedOut props) as [f |]; cbn.
    + destruct (throws f (List.length log)); reflexivity.
    + now rewrite app_nil_r.
  - reflexivity.
Qed.

(** The log grows exactly at the ticks taken while RUNNING with negative
    remaining seconds, by the call of the callback given. *)
Lemma step_log (props : Props) (w : World) (e : Event) :
  invoked (step props w e) =
    (invoked w ++ if attempts props w e then provided props else [])%list.
Proof.
  destruct e as [now | t]; cbn [attempts].
  - fold (stateOf w). destruct (stateOf w) eqn:Es; cbn [CountdownState_eqb andb].
    + rewrite (step_tick_running props w now Es). cbv zeta.
      destruct (_ <? 0); cbn; [reflexivity | now rewrite app_nil_r].
    + rewrite step_tick_idle by congruence. now rewrite app_nil_r.
    + rewrite step_tick_idle by congruence. now rewrite app_nil_r.
  - rewrite step_click. cbn. now rewrite app_nil_r.
Qed.

(** A step ends in [TIMEDOUT] from elsewhere only as a tick taken while
    [RUNNING] with a negative remainder, whose call of the callback, if
    there is one, returns. *)
Lemma step_into_timedout (props : Props) (w : World) (e : Event) :
  stateOf w <> TIMEDOUT ->
  stateOf (step props w e) = TIMEDOUT ->
  stateOf w = RUNNING /\
  exists now, e = Tick now /\
    calculateRemainingSeconds now (endTimestamp props) < 0 /\
    invoked (step props w e) = (invoked w ++ provided props)%list /\
    callReturns props w = true.
Proof.
  intros Hw Hstep. destruct e as [now | t].
  - destruct (stateOf w) eqn:Es; try congruence.
    + split; [reflexivity |]. exists now. split; [reflexivity |].
      rewrite (step_tick_running props w now Es) in *. cbv zeta in *.
      destruct (Z.ltb_spec (calculateRemainingSeconds now (endTimestamp props)) 0);
        [| discriminate Hstep].
      split; [assumption |]. split; [reflexivity |].
      unfold stateOf in Hstep. cbn in Hstep.
      destruct (callReturns props w); [reflexivity | discriminate Hstep].
    + rewrite step_tick_idle in Hstep by congruence. congruence.
  - rewrite step_click in Hstep. unfold stateOf in *. cbn in Hstep.
    destruct (countdownState (hooks w)); cbn in Hstep; congruence.
Qed.

Lemma step_stays_out (props : Props) (w : World) (e : Event) :
  stateOf (step props w e) <> TIMEDOUT -> stateOf w <> TIMEDOUT.
Proof.
  intros Hstep Hw. apply Hstep.
  destruct e as [now | t].
  - rewrite step_tick_idle by congruence. exact Hw.
  - rewrite step_click. unfold stateOf in *. cbn. now rewrite Hw.
Qed.

Lemma step_timedout (props : Props) (w : World) (e : Event) :
  stateOf w = TIMEDOUT -> step props w e = w.
Proof.
  intros H. destruct e as [now | t].
  - apply step_tick_idle. congruence.
  - rewrite step_click. rewrite H. destruct w as [[s r] log].
    unfold stateOf in H. cbn in *. now subst.
Qed.

Lemma run_timedout (props : Props) (w : World) (trace : list Event) :
  stateOf w = TIMEDOUT -> run props w trace = w.
Proof.
  intros H. induction trace as [| e trace IH]; [reflexivity |].
  unfold run in *. cbn [fold_left]. now rewrite step_timedout.
Qed.

Lemma run_cons (props : Props) (w : World) (e : Event) (trace : list Event) :
  run props w (e :: trace) = run props (step props w e) trace.
Proof.
  reflexivity.
Qed.

Lemma run_app (props : Props) (w : World) (l1 l2 : list Event) :
  run props w (l1 ++ l2) = run props (run props w l1) l2.
Proof.
  apply fold_left_app.
Qed.

(** ** The control and the frame of a tick *)

(** C6. The pause/resume toggle maps RUNNING to PAUSED and PAUSED to
    RUNNING, so applying it twice restores the original state, and it
    does nothing when the state is TIMEDOUT. *)
Theorem togglePaused_alternates (props : Props) (w : World) (t t' : Z) :
  let w' := step props w (Click t) in
  (stateOf w = RUNNING -> stateOf w' = PAUSED) /\
  (stateOf w = PAUSED -> stateOf w' = RUNNING) /\
  step props w' (Click t') = w /\
  (stateOf w = TIMEDOUT -> w' = w) /\
  stateOf w' = toggled (stateOf w).
Proof.
  intros w'. subst w'. rewrite !step_click.
  destruct w as [[s r] log]. unfold stateOf. cbn.
  repeat split; try (intros ->; reflexivity).
  destruct s; reflexivity.
Qed.

Lemma togglePaused_alternates_witness :
  let w := mkWorld (mkHooks RUNNING 41) [] in
  stateOf (step (mkProps 42000 None) w (Click 1000)) = PAUSED /\
  stateOf (step (mkProps 42000 None)
             (mkWorld (mkHooks PAUSED 41) []) (Click 1000)) = RUNNING /\
  step (mkProps 42000 None)
    (mkWorld (mkHooks TIMEDOUT (-1)) []) (Click 1000)
  = mkWorld (mkHooks TIMEDOUT (-1)) [].
Proof.
  intros w. split; [| split].
  - destruct (togglePaused_alternates (mkProps 42000 None) w 1000 0)
      as [Hrun _].
    exact (Hrun eq_refl).
  - destruct (togglePaused_alternates (mkProps 42000 None)
                (mkWorld (mkHooks PAUSED 41) []) 1000 0)
      as [_ [Hpaused _]].
    exact (Hpaused eq_refl).
  - destruct (togglePaused_alternates (mkProps 42000 None)
                (mkWorld (mkHooks TIMEDOUT (-1)) []) 1000 0)
      as [_ [_ [_ [Hout _]]]].
    exact (Hout eq_refl).
Defined.

(** C8. When the state is not RUNNING (PAUSED or TIMEDOUT) a tick leaves
    the state unchanged and does not call [onTimedOut], however far past
    the target the clock is. *)
Theorem tick_only_while_running (props : Props) (w : World) (now : Z) :
  stateOf w <> RUNNING ->
  stateOf (step props w (Tick now)) = stateOf w /\
  invoked (step props w (Tick now)) = invoked w /\
  step props w (Tick now) = w.
Proof.
  intros H. rewrite step_tick_idle by exact H. repeat split.
Qed.

Lemma tick_only_while_running_witness :
  let props := mkProps 42000 (Some (ForeignFunction 0)) in
  let w := mkWorld (mkHooks PAUSED 41) [] in
  stateOf w <> RUNNING /\
  stateOf (step props w (Tick 99000)) = PAUSED /\
  invoked (step props w (Tick 99000)) = [].
Proof.
  intros props w.
  assert (H : stateOf w <> RUNNING) by discriminate.
  split; [exact H |].
  destruct (tick_only_while_running props w 99000 H) as [E1 [E2 _]].
  split; [exact E1 | exact E2].
Defined.

(** ** Traces *)

(** C7. TIMEDOUT is absorbing: once the state is TIMEDOUT no sequence of
    ticks and toggles changes it to RUNNING or PAUSED; and the only
    transition into TIMEDOUT is from RUNNING. *)
Theorem timedout_absorbing (props : Props) (w : World) (trace : list Event) (e : Event) :
  (stateOf w = TIMEDOUT -> stateOf (run props w trace) = TIMEDOUT) /\
  (stateOf w <> TIMEDOUT -> stateOf (step props w e) = TIMEDOUT ->
   stateOf w = RUNNING).
Proof.
  split.
  - intros H. now rewrite run_timedout.
  - intros Hw Hstep. now destruct (step_into_timedout props w e Hw Hstep).
Qed.

Lemma timedout_absorbing_witness :
  let props := mkProps 42000 None in
  stateOf (run props (mkWorld (mkHooks TIMEDOUT (-1)) [])
             [Click 50000; Tick 51000; Click 52000; Tick 10]) = TIMEDOUT /\
  stateOf (mkWorld (mkHooks RUNNING 0) []) = RUNNING.
Proof.
  intros props. split.
  - destruct (timedout_absorbing props (mkWorld (mkHooks TIMEDOUT (-1)) [])
                [Click 50000; Tick 51000; Click 52000; Tick 10] (Tick 0))
      as [Habs _].
    exact (Habs eq_refl).
  - destruct (timedout_absorbing props (mkWorld (mkHooks RUNNING 0) [])
                [] (Tick 42000))
      as [_ Hinto].
    apply Hinto; [discriminate | reflexivity].
Defined.

Lemma repeat_snoc (f : Callback) (n : nat) :
  (repeat f n ++ [f])%list = repeat f (S n).
Proof.
  induction n as [| n IH]; cbn; [reflexivity | now rewrite IH].
Qed.

(** A step that does not time out keeps the log a log of failed calls. *)
Lemma step_failedCalls (props : Props) (w : World) (e : Event) :
  stateOf (step props w e) <> TIMEDOUT ->
  failedCalls props w ->
  failedCalls props (step props w e).
Proof.
  intros Hstep Hlog. unfold failedCalls in *.
  rewrite step_log.
  destruct (attempts props w e) eqn:Ea; [| now rewrite app_nil_r].
  destruct e as [now | t]; [| discriminate Ea]. cbn [attempts] in Ea.
  apply andb_true_iff in Ea as [Es Eneg].
  assert (Hrun : stateOf w = RUNNING)
    by (unfold stateOf; destruct (countdownState (hooks w)); cbn in Es; congruence).
  rewrite (step_tick_running props w now Hrun) in Hstep. cbv zeta in Hstep.
  rewrite Eneg in Hstep. unfold stateOf in Hstep. cbn in Hstep.
  unfold provided, callReturns in *.
  destruct (onTimedOut props) as [f |]; [| now elim Hstep].
  destruct Hlog as [n [Hn Hthrew]]. rewrite Hn in *. rewrite repeat_length in Hstep.
  destruct (throws f n) eqn:Et; [| now elim Hstep].
  exists (S n). split; [apply repeat_snoc |].
  intros i Hi. destruct (Nat.eq_dec i n) as [-> | Hne]; [exact Et |].
  apply Hthrew. lia.
Qed.

(** A step that times out completes it with a call that returned. *)
Lemma step_settledCalls (props : Props) (w : World) (e : Event) :
  stateOf w <> TIMEDOUT ->
  stateOf (step props w e) = TIMEDOUT ->
  failedCalls props w ->
  settledCalls props (step props w e).
Proof.
  intros Hw Hstep Hlog.
  destruct (step_into_timedout props w e Hw Hstep)
    as [_ [now [_ [_ [Hinv Hret]]]]].
  unfold settledCalls, failedCalls, provided, callReturns in *. rewrite Hinv.
  destruct (onTimedOut props) as [f |].
  - destruct Hlog as [n [Hn Hthrew]]. rewrite Hn in *. rewrite repeat_length in Hret.
    exists n. split; [apply repeat_snoc |]. split; [exact Hthrew |].
    now destruct (throws f n).
  - now rewrite app_nil_r.
Qed.





(** ** What is shown *)

(** C9. On every render, in every state, the time shown is
    [formatDeltaTimeAsString (calculateTimeDifference now target)] for
    the current clock value: it depends on the clock and the target only,
    not on the RUNNING/PAUSED/TIMEDOUT state. *)
Theorem timer_shows_current_difference
    (toLocaleDateString : string -> Z -> string)
    (toLocaleTimeString : Z -> string)
    (props : Props) (cells cells' : Hooks) (now : Z) (lang : string) :
  let render := Countdown toLocaleDateString toLocaleTimeString props in
  timer (render cells now lang)
    = formatDeltaTimeAsString (calculateTimeDifference now (endTimestamp props)) /\
  timer (render cells now lang) = timer (render cells' now lang).
Proof.
  cbv zeta. unfold Countdown.
  destruct (String.prefix "de" lang); cbn; split; reflexivity.
Qed.

(** * Further properties of the code *)

(** ** The calculators together *)

Lemma calculateRemainingSeconds_lower_bound (now target : Z) :
  -1 <= calculateRemainingSeconds now target.
Proof.
  destruct (Z.le_gt_cases target now) as [Hle | Hgt].
  - rewrite calculateRemainingSeconds_past by exact Hle. lia.
  - rewrite calculateRemainingSeconds_future by lia.
    assert (0 <= (target - now) / 1000) by (apply Z.div_pos; lia). lia.
Qed.

(** X1. The probe never grows as the clock advances: for
    [now1 <= now2], the value at [now2] is at most the value at [now1],
    the sentinel -1 included. *)
Theorem calculateRemainingSeconds_antitone (now1 now2 target : Z) :
  now1 <= now2 ->
  calculateRemainingSeconds now2 target <= calculateRemainingSeconds now1 target.
Proof.
  intros H.
  destruct (Z.le_gt_cases target now2) as [Hle | Hgt].
  - rewrite (calculateRemainingSeconds_past now2) by exact Hle.
    apply calculateRemainingSeconds_lower_bound.
  - rewrite !calculateRemainingSeconds_future by lia.
    apply Z.div_le_mono; lia.
Qed.

Lemma calculateRemainingSeconds_antitone_witness :
  1000 <= 2500 /\
  calculateRemainingSeconds 2500 43000 <= calculateRemainingSeconds 1000 43000.
Proof.
  assert (H : 1000 <= 2500) by lia.
  split; [exact H |].
  exact (calculateRemainingSeconds_antitone 1000 2500 43000 H).
Defined.

(** X2. The probe and the delta agree while the target is ahead: the
    probe is the delta's hours*3600 + minutes*60 + seconds when
    [now < target], and -1 otherwise (where the delta is all-zero). *)
Theorem probe_agrees_with_delta (now target : Z) :
  calculateRemainingSeconds now target =
    if target <=? now then -1
    else totalSeconds (calculateTimeDifference now target).
Proof.
  destruct (Z.leb_spec target now) as [Hle | Hgt].
  - apply calculateRemainingSeconds_past. exact Hle.
  - rewrite calculateRemainingSeconds_future by exact Hgt.
    rewrite (calculateTimeDifference_fields now target) by lia.
    unfold totalSeconds. cbn.
    set (total := (target - now) / 1000).
    pose proof (Z.div_mod total 3600 ltac:(lia)) as D1.
    pose proof (Z.div_mod (total mod 3600) 60 ltac:(lia)) as D2.
    lia.
Qed.

(** X3. Round trip: a delta in range is what [calculateTimeDifference]
    returns for any target that lies its number of whole seconds, plus
    less than a second, after the start. *)
Theorem calculateTimeDifference_round_trip (d : Delta) (now r : Z) :
  inRange d ->
  0 <= r < 1000 ->
  calculateTimeDifference now (now + totalSeconds d * 1000 + r) = d.
Proof.
  intros (Hh & Hm & Hs) Hr. destruct d as [h m s]. unfold totalSeconds. cbn in *.
  set (t := h * 3600 + m * 60 + s).
  assert (Ht : 0 <= t) by (unfold t; lia).
  rewrite calculateTimeDifference_fields by lia. cbv zeta.
  replace (now + t * 1000 + r - now) with (t * 1000 + r) by ring.
  rewrite Z.div_add_l by lia. rewrite (Z.div_small r 1000) by lia.
  rewrite Z.add_0_r.
  assert (Eh : t / 3600 = h).
  { symmetry. apply (Z.div_unique t 3600 h (m * 60 + s)); [lia | unfold t; ring]. }
  assert (Er : t mod 3600 = m * 60 + s).
  { symmetry. apply (Z.mod_unique t 3600 h (m * 60 + s)); [lia | unfold t; ring]. }
  rewrite Eh, Er.
  assert (Em : (m * 60 + s) / 60 = m).
  { symmetry. apply (Z.div_unique (m * 60 + s) 60 m s); [lia | ring]. }
  assert (Es : (m * 60 + s) mod 60 = s).
  { symmetry. apply (Z.mod_unique (m * 60 + s) 60 m s); [lia | ring]. }
  now rewrite Em, Es.
Qed.

Lemma calculateTimeDifference_round_trip_witness :
  calculateTimeDifference 5000 (5000 + totalSeconds (mkDelta 1 2 3) * 1000 + 999)
  = mkDelta 1 2 3.
Proof.
  apply (calculateTimeDifference_round_trip (mkDelta 1 2 3) 5000 999).
  - unfold inRange. cbn. lia.
  - lia.
Defined.

(** X4. The delta is all-zero exactly when the target is less than one
    second ahead of the start (or behind it): the last second before the
    target already shows zero. *)
Theorem calculateTimeDifference_zero_iff (now target : Z) :
  calculateTimeDifference now target = mkDelta 0 0 0 <-> target - now < 1000.
Proof.
  destruct (Z.le_gt_cases now target) as [Hle | Hgt].
  - rewrite (calculateTimeDifference_fields now target Hle). cbv zeta.
    set (total := (target - now) / 1000).
    assert (Htot : 0 <= total) by (apply Z.div_pos; lia).
    pose proof (Z.div_mod total 3600 ltac:(lia)) as D1.
    pose proof (Z.div_mod (total mod 3600) 60 ltac:(lia)) as D2.
    split.
    + intros E. injection E as E1 E2 E3.
      assert (total = 0) by lia.
      destruct (Z.lt_ge_cases (target - now) 1000) as [Hlt | Hge]; [exact Hlt |].
      assert (1 <= total) by (apply Z.div_le_lower_bound; lia). lia.
    + intros Hlt. assert (E : total = 0) by (apply Z.div_small; lia).
      rewrite E. reflexivity.
  - rewrite calculateTimeDifference_past by lia. split; [lia | reflexivity].
Qed.

Lemma calculateTimeDifference_zero_iff_witness :
  calculateTimeDifference 41001 42000 = mkDelta 0 0 0.
Proof.
  apply (calculateTimeDifference_zero_iff 41001 42000). lia.
Defined.

(** ** More on the formatter *)

Lemma length_append (a b : string) :
  String.length (a ++ b) = (String.length a + String.length b)%nat.
Proof.
  induction a as [| c a IH]; simpl; [reflexivity | now rewrite IH].
Qed.

Lemma append_inj_length (a a' b b' : string) :
  String.length a = String.length a' ->
  a ++ b = a' ++ b' ->
  a = a' /\ b = b'.
Proof.
  revert a'. induction a as [| c a IH]; intros [| c' a'] Hlen H;
    simpl in *; try discriminate.
  - split; [reflexivity | exact H].
  - injection H as Hc Hrest. injection Hlen as Hlen.
    destruct (IH a' Hlen Hrest) as [-> ->]. now subst.
Qed.

Lemma numberToString_inj (n n' : Z) :
  JS.numberToString n = JS.numberToString n' -> n = n'.
Proof.
  unfold JS.numberToString. intros H.
  assert (Hnn : forall z, Z.to_int z <> Decimal.Pos Decimal.Nil /\
                          Z.to_int z <> Decimal.Neg Decimal.Nil).
  { intros [| p | p]; cbn; split; try discriminate;
      intros E; injection E as E; now apply (Unsigned.to_uint_nonnil p). }
  apply DecimalZ.to_int_inj.
  destruct (Hnn n) as [A1 A2]. destruct (Hnn n') as [B1 B2].
  pose proof (NilZero.isi (Z.to_int n) A1 A2) as E1.
  pose proof (NilZero.isi (Z.to_int n') B1 B2) as E2.
  rewrite H in E1. congruence.
Qed.

Lemma twoDigits_inj (n n' : Z) :
  0 <= n < 100 -> 0 <= n' < 100 -> twoDigits n = twoDigits n' -> n = n'.
Proof.
  intros Hn Hn' H.
  assert (Hall : below 100 (fun a => below 100 (fun b =>
            implb (String.eqb (twoDigits a) (twoDigits b)) (a =? b))) = true)
    by (vm_compute; reflexivity).
  pose proof (below_spec _ _ (below_spec _ _ Hall n ltac:(lia)) n' ltac:(lia)) as E.
  cbv beta in E. apply String.eqb_eq in H. rewrite H in E. cbn in E.
  now apply Z.eqb_eq.
Qed.

Lemma zeroPad2_inj (n n' : Z) :
  0 <= n -> 0 <= n' -> zeroPad2 n = zeroPad2 n' -> n = n'.
Proof.
  intros Hn Hn' H.
  destruct (Z.lt_ge_cases n 100) as [Hs | Hl];
    destruct (Z.lt_ge_cases n' 100) as [Hs' | Hl'].
  - rewrite !zeroPad2_below_100 in H by lia. apply twoDigits_inj; trivial; lia.
  - destruct (zeroPad2_from_100 n' Hl') as [_ L].
    rewrite <- H, zeroPad2_below_100 in L by lia. cbn in L. lia.
  - destruct (zeroPad2_from_100 n Hl) as [_ L].
    rewrite H, zeroPad2_below_100 in L by lia. cbn in L. lia.
  - destruct (zeroPad2_from_100 n Hl) as [E _].
    destruct (zeroPad2_from_100 n' Hl') as [E' _].
    apply numberToString_inj. congruence.
Qed.

Lemma zeroPad2_length (n : Z) :
  0 <= n ->
  (2 <= String.length (zeroPad2 n))%nat /\
  (n < 100 -> String.length (zeroPad2 n) = 2%nat).
Proof.
  intros H. destruct (Z.lt_ge_cases n 100) as [Hs | Hl].
  - rewrite zeroPad2_below_100 by lia. cbn. split; [lia | reflexivity].
  - destruct (zeroPad2_from_100 n Hl) as [_ L]. split; [lia | lia].
Qed.

(** X5. Whatever the three fields are, in range or not, the formatter
    returns a string: the separators make every [+] a concatenation, so
    no two fields are ever added as numbers. *)
Theorem formatDeltaTimeAsString_is_string (d : Delta) :
  formatDeltaTimeAsString d =
    JS.VStr (if 0 <? hours d
             then JS.toString (fieldString (hours d)) ++ ":" ++
                  JS.toString (fieldString (minutes d)) ++ ":" ++
                  JS.toString (fieldString (seconds d))
             else JS.toString (fieldString (minutes d)) ++ ":" ++
                  JS.toString (fieldString (seconds d))).
Proof.
  unfold formatDeltaTimeAsString. cbv zeta.
  destruct (0 <? hours d).
  - rewrite (add_string_r (fieldString (hours d))).
    rewrite !add_string_l. cbn [JS.toString].
    now rewrite !append_assoc.
  - rewrite add_string_r, add_string_l.
    now rewrite !append_assoc.
Qed.

(** X6. Width of the output for a delta in range: five characters when
    the hours are zero, eight when they are between 1 and 99, and the
    length of the hours' numeral plus six (at least nine) from 100 on. *)
Theorem formatDeltaTimeAsString_width (d : Delta) :
  inRange d ->
  let n := String.length (JS.toString (formatDeltaTimeAsString d)) in
  (hours d = 0 -> n = 5%nat) /\
  (0 < hours d < 100 -> n = 8%nat) /\
  (100 <= hours d ->
     n = (String.length (JS.numberToString (hours d)) + 6)%nat /\ (9 <= n)%nat).
Proof.
  intros (Hh & Hm & Hs) n. subst n.
  rewrite formatDeltaTimeAsString_clockFace by lia.
  cbn [JS.toString]. unfold clockFace.
  rewrite (zeroPad2_below_100 (minutes d)) by lia.
  rewrite (zeroPad2_below_100 (seconds d)) by lia.
  destruct (Z.ltb_spec 0 (hours d)) as [Hpos | Hzero].
  - rewrite length_append. cbn [String.length twoDigits append].
    split; [lia |]. split.
    + intros H. rewrite zeroPad2_below_100 by lia. reflexivity.
    + intros H. destruct (zeroPad2_from_100 _ H) as [E L].
      rewrite E in *. split; lia.
  - split; [reflexivity | split; lia].
Qed.

Lemma formatDeltaTimeAsString_width_witness :
  String.length (JS.toString (formatDeltaTimeAsString (mkDelta 0 5 9))) = 5%nat /\
  String.length (JS.toString (formatDeltaTimeAsString (mkDelta 42 0 7))) = 8%nat /\
  String.length (JS.toString (formatDeltaTimeAsString (mkDelta 1234 0 7))) = 10%nat.
Proof.
  split; [| split].
  - destruct (formatDeltaTimeAsString_width (mkDelta 0 5 9)) as [H _].
    + unfold inRange. cbn. lia.
    + exact (H eq_refl).
  - destruct (formatDeltaTimeAsString_width (mkDelta 42 0 7)) as [_ [H _]].
    + unfold inRange. cbn. lia.
    + apply H. cbn. lia.
  - destruct (formatDeltaTimeAsString_width (mkDelta 1234 0 7)) as [_ [_ H]].
    + unfold inRange. cbn. lia.
    + destruct H as [H _]; [cbn; lia | exact H].
Defined.

(** X7. On deltas in range the formatter is injective: two different
    remaining times are never shown as the same string. *)
Theorem formatDeltaTimeAsString_injective (d d' : Delta) :
  inRange d -> inRange d' ->
  formatDeltaTimeAsString d = formatDeltaTimeAsString d' ->
  d = d'.
Proof.
  intros (Hh & Hm & Hs) (Hh' & Hm' & Hs') H.
  rewrite !formatDeltaTimeAsString_clockFace in H by lia.
  injection H as H. unfold clockFace in H.
  rewrite (zeroPad2_below_100 (minutes d)) in H by lia.
  rewrite (zeroPad2_below_100 (seconds d)) in H by lia.
  rewrite (zeroPad2_below_100 (minutes d')) in H by lia.
  rewrite (zeroPad2_below_100 (seconds d')) in H by lia.
  assert (Tail : forall m s m' s',
             0 <= m < 100 -> 0 <= s < 100 -> 0 <= m' < 100 -> 0 <= s' < 100 ->
             twoDigits m ++ ":" ++ twoDigits s = twoDigits m' ++ ":" ++ twoDigits s' ->
             m = m' /\ s = s').
  { intros m s m' s' B1 B2 B3 B4 E.
    apply append_inj_length in E; [| reflexivity].
    destruct E as [E1 E2]. injection E2 as E2 E3.
    split; apply twoDigits_inj; trivial. unfold twoDigits. congruence. }
  pose proof (zeroPad2_length (hours d) Hh) as [L _].
  pose proof (zeroPad2_length (hours d') Hh') as [L' _].
  destruct d as [h m s], d' as [h' m' s']. cbn [hours minutes seconds] in *.
  destruct (Z.ltb_spec 0 h) as [Hpos | Hzero];
    destruct (Z.ltb_spec 0 h') as [Hpos' | Hzero'].
  - pose proof (f_equal String.length H) as Hlen.
    rewrite !length_append in Hlen. cbn [String.length twoDigits append] in Hlen.
    apply append_inj_length in H; [| lia].
    destruct H as [E1 E2]. apply zeroPad2_inj in E1; trivial.
    assert (E3 : twoDigits m ++ ":" ++ twoDigits s
                 = twoDigits m' ++ ":" ++ twoDigits s')
      by (injection E2; intros; unfold twoDigits; cbn [append]; congruence).
    destruct (Tail m s m' s' ltac:(lia) ltac:(lia) ltac:(lia) ltac:(lia) E3)
      as [-> ->].
    now subst.
  - pose proof (f_equal String.length H) as Hlen.
    rewrite !length_append in Hlen. cbn [String.length twoDigits append] in Hlen. lia.
  - pose proof (f_equal String.length H) as Hlen.
    rewrite !length_append in Hlen. cbn [String.length twoDigits append] in Hlen. lia.
  - destruct (Tail m s m' s' ltac:(lia) ltac:(lia) ltac:(lia) ltac:(lia) H)
      as [-> ->].
    f_equal. lia.
Qed.

Lemma formatDeltaTimeAsString_injective_witness :
  inRange (calculateTimeDifference 0 3723999) /\
  inRange (mkDelta 1 2 3) /\
  calculateTimeDifference 0 3723999 = mkDelta 1 2 3.
Proof.
  assert (H1 : inRange (calculateTimeDifference 0 3723999))
    by (unfold inRange; cbn; lia).
  assert (H2 : inRange (mkDelta 1 2 3)) by (unfold inRange; cbn; lia).
  split; [exact H1 |]. split; [exact H2 |].
  apply (formatDeltaTimeAsString_injective _ _ H1 H2). reflexivity.
Defined.

(** ** More on the machine *)

(** X8. A tick taken while RUNNING: before the target the state stays
    RUNNING, the cell takes the whole seconds left and nothing is
    called; from the target on (already when the clock equals it) the
    cell is set to -1 and the callback, if given, is called, and the
    state becomes TIMEDOUT unless that call throws, in which case it
    stays RUNNING. *)
Theorem tick_while_running (props : Props) (w : World) (now : Z) :
  stateOf w = RUNNING ->
  let w' := step props w (Tick now) in
  (endTimestamp props <= now ->
     remainingSeconds (hooks w') = -1 /\
     invoked w' = (invoked w ++ provided props)%list /\
     stateOf w' = if callReturns props w then TIMEDOUT else RUNNING) /\
  (now < endTimestamp props ->
     stateOf w' = RUNNING /\
     remainingSeconds (hooks w') = (endTimestamp props - now) / 1000 /\
     invoked w' = invoked w) /\
  (stateOf w' = TIMEDOUT <->
   endTimestamp props <= now /\ callReturns props w = true).
Proof.
  intros Hrun w'. subst w'.
  rewrite (step_tick_running props w now Hrun). cbv zeta.
  destruct (Z.le_gt_cases (endTimestamp props) now) as [Hle | Hgt].
  - rewrite calculateRemainingSeconds_past by exact Hle.
    unfold stateOf. cbn.
    split; [intros _; repeat split |]. split; [lia |].
    destruct (callReturns props w); split; try tauto; try discriminate.
    intros [_ H]. discriminate H.
  - rewrite calculateRemainingSeconds_future by lia.
    assert (0 <= (endTimestamp props - now) / 1000) by (apply Z.div_pos; lia).
    destruct (Z.ltb_spec ((endTimestamp props - now) / 1000) 0); [lia |].
    unfold stateOf. cbn.
    split; [lia |]. split; [intros _; repeat split |].
    split; [discriminate | lia].
Qed.

Lemma tick_while_running_witness :
  let f := mkCallback 3 (fun n => Nat.eqb n 0) in
  let props := mkProps 42000 (Some f) in
  let w := mkWorld (mkHooks RUNNING 41) [] in
  stateOf (step props w (Tick 42000)) = RUNNING /\
  invoked (step props w (Tick 42000)) = [f] /\
  stateOf (step props (step props w (Tick 42000)) (Tick 43000)) = TIMEDOUT /\
  stateOf (step props w (Tick 41999)) = RUNNING.
Proof.
  intros f props w.
  assert (Hrun : stateOf w = RUNNING) by reflexivity.
  assert (Hrun' : stateOf (step props w (Tick 42000)) = RUNNING) by reflexivity.
  destruct (tick_while_running props w 42000 Hrun) as [Hlate _].
  destruct (Hlate ltac:(cbn; lia)) as [_ [Hlog Hstate]].
  destruct (tick_while_running props _ 43000 Hrun') as [_ [_ Hout]].
  destruct (tick_while_running props w 41999 Hrun) as [_ [Hstay _]].
  split; [exact Hstate |]. split; [exact Hlog |]. split.
  - apply Hout. split; [cbn; lia | reflexivity].
  - apply Hstay. cbn. lia.
Defined.

Lemma step_cell_bound (props : Props) (w : World) (e : Event) :
  -1 <= remainingSeconds (hooks w) ->
  -1 <= remainingSeconds (hooks (step props w e)).
Proof.
  intros H. destruct e as [now | t].
  - destruct (stateOf w) eqn:Es.
    + rewrite (step_tick_running props w now Es). cbv zeta.
      pose proof (calculateRemainingSeconds_lower_bound now (endTimestamp props)).
      destruct (_ <? 0); cbn; assumption.
    + rewrite step_tick_idle by congruence. exact H.
    + rewrite step_tick_idle by congruence. exact H.
  - rewrite step_click. cbn. exact H.
Qed.

Lemma step_cell_timedout (props : Props) (w : World) (e : Event) :
  stateOf w <> TIMEDOUT ->
  stateOf (step props w e) = TIMEDOUT ->
  remainingSeconds (hooks (step props w e)) = -1.
Proof.
  intros Hw Hstep.
  destruct (step_into_timedout props w e Hw Hstep) as [Hrun [now [-> [Hneg _]]]].
  rewrite (step_tick_running props w now Hrun) in *. cbv zeta in *.
  pose proof (calculateRemainingSeconds_lower_bound now (endTimestamp props)).
  destruct (Z.ltb_spec (calculateRemainingSeconds now (endTimestamp props)) 0);
    cbn; lia.
Qed.

Lemma run_invariant (props : Props) (trace : list Event) :
  forall w0,
  (-1 <= remainingSeconds (hooks w0) /\
   (stateOf w0 = TIMEDOUT ->
      remainingSeconds (hooks w0) = -1 /\ settledCalls props w0) /\
   (stateOf w0 <> TIMEDOUT -> failedCalls props w0)) ->
  let w := run props w0 trace in
  -1 <= remainingSeconds (hooks w) /\
  (stateOf w = TIMEDOUT ->
     remainingSeconds (hooks w) = -1 /\ settledCalls props w) /\
  (stateOf w <> TIMEDOUT -> failedCalls props w).
Proof.
  induction trace as [| e trace IH]; intros w0 Inv; [exact Inv |].
  cbv zeta. rewrite run_cons. apply IH.
  destruct Inv as (Hb & Hout & Hin).
  split; [now apply step_cell_bound |].
  destruct (CountdownState_eqb (stateOf w0) TIMEDOUT) eqn:Eb.
  - assert (Hw : stateOf w0 = TIMEDOUT)
      by (destruct (stateOf w0); cbn in Eb; congruence).
    rewrite step_timedout by exact Hw. split; [exact Hout | congruence].
  - assert (Hw : stateOf w0 <> TIMEDOUT)
      by (destruct (stateOf w0); cbn in Eb; congruence).
    split.
    + intros Hstep. split; [now apply step_cell_timedout |].
      apply step_settledCalls; auto.
    + intros Hstep. apply step_failedCalls; auto.
Qed.

Lemma mount_invariant (props : Props) (mounted : Z) :
  let w0 := mount props mounted in
  -1 <= remainingSeconds (hooks w0) /\
  (stateOf w0 = TIMEDOUT ->
     remainingSeconds (hooks w0) = -1 /\ settledCalls props w0) /\
  (stateOf w0 <> TIMEDOUT -> failedCalls props w0).
Proof.
  unfold mount, stateOf. cbn.
  split; [apply calculateRemainingSeconds_lower_bound |].
  split; [discriminate |]. intros _. unfold failedCalls. cbn.
  destruct (onTimedOut props) as [f |]; [| reflexivity].
  exists 0%nat. split; [reflexivity | intros i Hi; lia].
Qed.

(** X9. An invariant of every world reachable from mounting, whatever
    the ticks and clicks: the seconds cell is at least -1, and -1 when
    the state is TIMEDOUT; the log holds calls of the given callback
    only (none if none was given); while the state is not TIMEDOUT every
    call made so far threw, and once it is TIMEDOUT the last call
    returned and every earlier one threw.  For a callback that never
    throws the log is empty until the timeout and holds its one call
    after it. *)
Theorem reachable_invariant (props : Props) (mounted : Z) (trace : list Event) :
  let w := run props (mount props mounted) trace in
  -1 <= remainingSeconds (hooks w) /\
  (stateOf w = TIMEDOUT ->
     remainingSeconds (hooks w) = -1 /\ settledCalls props w) /\
  (stateOf w <> TIMEDOUT -> failedCalls props w) /\
  (forall f, onTimedOut props = Some f ->
     (forall i, throws f i = false) ->
     invoked w = if CountdownState_eqb (stateOf w) TIMEDOUT then [f] else []).
Proof.
  cbv zeta.
  destruct (run_invariant props trace _ (mount_invariant props mounted))
    as (Hb & Hout & Hin).
  split; [exact Hb |]. split; [exact Hout |]. split; [exact Hin |].
  intros f Hf Hnever.
  unfold settledCalls, failedCalls in *. rewrite Hf in *.
  destruct (stateOf (run props (mount props mounted) trace)) eqn:Es;
    cbn [CountdownState_eqb].
  - destruct (Hin ltac:(discriminate)) as [[| n] [Hn Hthrew]]; [exact Hn |].
    specialize (Hthrew 0%nat ltac:(lia)). rewrite Hnever in Hthrew. discriminate.
  - destruct (Hin ltac:(discriminate)) as [[| n] [Hn Hthrew]]; [exact Hn |].
    specialize (Hthrew 0%nat ltac:(lia)). rewrite Hnever in Hthrew. discriminate.
  - destruct (Hout eq_refl) as [_ [[| n] [Hn [Hthrew _]]]]; [exact Hn |].
    specialize (Hthrew 0%nat ltac:(lia)). rewrite Hnever in Hthrew. discriminate.
Qed.

Lemma reachable_invariant_witness :
  let f := mkCallback 3 (fun n => Nat.ltb n 2) in
  let props := mkProps 42000 (Some f) in
  settledCalls props
    (run props (mount props 0) [Tick 50000; Click 50500; Click 50600;
                                Tick 51000; Tick 52000; Tick 53000]) /\
  failedCalls props (run props (mount props 0) [Tick 50000; Tick 51000]).
Proof.
  intros f props. split.
  - destruct (reachable_invariant props 0
                [Tick 50000; Click 50500; Click 50600;
                 Tick 51000; Tick 52000; Tick 53000]) as [_ [Hout _]].
    apply Hout. reflexivity.
  - destruct (reachable_invariant props 0 [Tick 50000; Tick 51000])
      as [_ [_ [Hin _]]].
    apply Hin. discriminate.
Defined.

Lemma run_before_target (props : Props) (trace : list Event) :
  forall w,
  stateOf w <> TIMEDOUT ->
  (forall now, In (Tick now) trace -> now < endTimestamp props) ->
  stateOf (run props w trace) <> TIMEDOUT /\
  invoked (run props w trace) = invoked w.
Proof.
  induction trace as [| e trace IH]; intros w Hw Hticks.
  - split; [exact Hw | reflexivity].
  - rewrite run_cons.
    assert (Hquiet : attempts props w e = false).
    { destruct e as [now | t]; [| reflexivity]. cbn [attempts].
      specialize (Hticks now (or_introl eq_refl)).
      rewrite calculateRemainingSeconds_future by exact Hticks.
      assert (0 <= (endTimestamp props - now) / 1000) by (apply Z.div_pos; lia).
      destruct (Z.ltb_spec ((endTimestamp props - now) / 1000) 0); [lia |].
      apply andb_false_r. }
    assert (Hstep : stateOf (step props w e) <> TIMEDOUT).
    { intros Hout.
      destruct (step_into_timedout props w e Hw Hout) as [_ [now [-> [Hneg _]]]].
      apply calculateRemainingSeconds_negative in Hneg.
      specialize (Hticks now (or_introl eq_refl)). lia. }
    pose proof (step_log props w e) as Hlog. rewrite Hquiet, app_nil_r in Hlog.
    destruct (IH (step props w e) Hstep) as [H1 H2].
    + intros now Hin. apply Hticks. now right.
    + split; [exact H1 | congruence].
Qed.

(** X10. Never early: if every tick of a trace happens before the
    target, the countdown does not time out and the callback is not
    called, whatever the clicks in between. *)
Theorem no_timeout_before_target (props : Props) (mounted : Z) (trace : list Event) :
  (forall now, In (Tick now) trace -> now < endTimestamp props) ->
  stateOf (run props (mount props mounted) trace) <> TIMEDOUT /\
  invoked (run props (mount props mounted) trace) = [].
Proof.
  intros H.
  apply (run_before_target props trace (mount props mounted)); [discriminate | exact H].
Qed.

Lemma no_timeout_before_target_witness :
  let props := mkProps 42000 (Some (ForeignFunction 3)) in
  invoked (run props (mount props 0) [Tick 1000; Click 1500; Click 1700; Tick 41999])
  = [].
Proof.
  intros props.
  apply (no_timeout_before_target props 0
           [Tick 1000; Click 1500; Click 1700; Tick 41999]).
  intros now [E | [E | [E | [E | []]]]]; inversion E; cbn; lia.
Defined.

Lemma run_paused_ticks (props : Props) (w : World) (ticks : list Event) :
  stateOf w = PAUSED ->
  forallb isTick ticks = true ->
  run props w ticks = w.
Proof.
  intros Hp. induction ticks as [| e ticks IH]; intros Hall; [reflexivity |].
  cbn [forallb] in Hall. apply andb_true_iff in Hall as [He Hrest].
  destruct e as [now | t]; [| discriminate He].
  rewrite run_cons, step_tick_idle by congruence. now apply IH.
Qed.

(** X11. While PAUSED the countdown is frozen: any number of ticks, at
    any clock values, even long after the target, leave the state, the
    cell and the log as they were. *)
Theorem paused_ignores_ticks (props : Props) (w : World) (ticks : list Event) :
  stateOf w = PAUSED ->
  forallb isTick ticks = true ->
  run props w ticks = w.
Proof.
  apply run_paused_ticks.
Qed.

Lemma paused_ignores_ticks_witness :
  let props := mkProps 42000 (Some (ForeignFunction 3)) in
  let w := mkWorld (mkHooks PAUSED 17) [] in
  run props w [Tick 43000; Tick 44000; Tick 99000] = w.
Proof.
  intros props w.
  apply (paused_ignores_ticks props w [Tick 43000; Tick 44000; Tick 99000]);
    reflexivity.
Defined.

(** X12. Pausing does not move the deadline: after a pause of any
    length, the first tick after resuming at or past the target calls
    the callback, if given, and times the countdown out unless that call
    throws, in which case the state is RUNNING again. *)
Theorem resume_after_target
    (props : Props) (w : World) (ticks : list Event) (t now : Z) :
  stateOf w = PAUSED ->
  forallb isTick ticks = true ->
  endTimestamp props <= now ->
  let w' := run props w (ticks ++ [Click t; Tick now]) in
  stateOf w' = (if callReturns props w then TIMEDOUT else RUNNING) /\
  remainingSeconds (hooks w') = -1 /\
  invoked w' = (invoked w ++ provided props)%list.
Proof.
  intros Hp Hall Hle w'. subst w'.
  rewrite run_app, (run_paused_ticks props w ticks Hp Hall).
  rewrite !run_cons. cbn [run fold_left].
  assert (Hrun : stateOf (step props w (Click t)) = RUNNING)
    by (rewrite step_click; unfold stateOf in *; cbn; now rewrite Hp).
  rewrite (step_tick_running props _ now Hrun). cbv zeta.
  rewrite calculateRemainingSeconds_past by exact Hle.
  rewrite step_click. unfold callReturns. cbn. repeat split.
Qed.

Lemma resume_after_target_witness :
  let props := mkProps 42000 (Some (ForeignFunction 3)) in
  let w := mkWorld (mkHooks PAUSED 17) [] in
  stateOf (run props w ([Tick 50000; Tick 51000] ++ [Click 60000; Tick 60500]))
  = TIMEDOUT.
Proof.
  intros props w.
  apply (resume_after_target props w [Tick 50000; Tick 51000] 60000 60500).
  - reflexivity.
  - reflexivity.
  - cbn. lia.
Defined.

(** ** More on what is shown *)

Lemma calculateTimeDifference_inRange (now target : Z) :
  inRange (calculateTimeDifference now target).
Proof.
  unfold inRange.
  destruct (Z.le_gt_cases now target) as [Hle | Hgt].
  - rewrite (calculateTimeDifference_fields now target Hle). cbn.
    set (total := (target - now) / 1000).
    assert (0 <= total) by (apply Z.div_pos; lia).
    pose proof (Z.mod_pos_bound total 3600 ltac:(lia)) as B1.
    pose proof (Z.mod_pos_bound (total mod 3600) 60 ltac:(lia)) as B2.
    assert (0 <= total / 3600) by (apply Z.div_pos; lia).
    assert (0 <= total mod 3600 / 60) by (apply Z.div_pos; lia).
    assert (total mod 3600 / 60 < 60) by (apply Z.div_lt_upper_bound; lia).
    lia.
  - rewrite calculateTimeDifference_past by lia. cbn. lia.
Qed.

Lemma timer_of_Countdown
    (toLocaleDateString : string -> Z -> string)
    (toLocaleTimeString : Z -> string)
    (props : Props) (cells : Hooks) (now : Z) (lang : string) :
  timer (Countdown toLocaleDateString toLocaleTimeString props cells now lang)
  = formatDeltaTimeAsString (calculateTimeDifference now (endTimestamp props)).
Proof.
  unfold Countdown. destruct (String.prefix "de" lang); reflexivity.
Qed.

(** X13. For all props, cells, clock values and languages, the time
    shown is a well-formed clock face: the zero-padded MM:SS or
    HH:MM:SS of a delta in range.  From less than a second before the
    target on, and for every later clock value, it is 00:00. *)
Theorem timer_always_well_formed
    (toLocaleDateString : string -> Z -> string)
    (toLocaleTimeString : Z -> string)
    (props : Props) (cells : Hooks) (now : Z) (lang : string) :
  let shown :=
    timer (Countdown toLocaleDateString toLocaleTimeString props cells now lang) in
  let delta := calculateTimeDifference now (endTimestamp props) in
  inRange delta /\
  shown = JS.VStr (clockFace delta) /\
  (endTimestamp props - now < 1000 -> shown = JS.VStr "00:00").
Proof.
  cbv zeta. rewrite timer_of_Countdown.
  pose proof (calculateTimeDifference_inRange now (endTimestamp props)) as R.
  split; [exact R |]. split.
  - destruct R as (Hh & Hm & Hs).
    apply formatDeltaTimeAsString_clockFace; lia.
  - intros H.
    destruct (Z.le_gt_cases now (endTimestamp props)) as [Hle | Hgt].
    + rewrite (calculateTimeDifference_fields _ _ Hle). cbv zeta.
      rewrite (Z.div_small (endTimestamp props - now) 1000) by lia. reflexivity.
    + rewrite calculateTimeDifference_past by lia. reflexivity.
Qed.

Lemma timer_always_well_formed_witness :
  timer (Countdown (fun _ _ => "") (fun _ => "")
           (mkProps 42000 None) (mkHooks PAUSED 3) 41001 "en-US")
  = JS.VStr "00:00".
Proof.
  apply (timer_always_well_formed (fun _ _ => "") (fun _ => "")
           (mkProps 42000 None) (mkHooks PAUSED 3) 41001 "en-US").
  cbn. lia.
Defined.

(** X14. The button is labelled by the state alone and reads
    "Resume this!" only while PAUSED.  A click while RUNNING or PAUSED
    swaps the label; in TIMEDOUT the button still reads "Pause this!"
    and a click changes nothing. *)
Theorem button_follows_state
    (toLocaleDateString : string -> Z -> string)
    (toLocaleTimeString : Z -> string)
    (props : Props) (w : World) (t now : Z) (lang : string) :
  let label := fun cells =>
    button (Countdown toLocaleDateString toLocaleTimeString props cells now lang) in
  let before := label (hooks w) in
  let after := label (hooks (step props w (Click t))) in
  match stateOf w with
  | RUNNING => before = "Pause this!" /\ after = "Resume this!"
  | PAUSED => before = "Resume this!" /\ after = "Pause this!"
  | TIMEDOUT => before = "Pause this!" /\ after = "Pause this!"
  end.
Proof.
  cbv zeta. rewrite step_click. unfold Countdown, stateOf.
  destruct (String.prefix "de" lang);
    destruct (countdownState (hooks w)); cbn; split; reflexivity.
Qed.

Lemma prefix_de (lang : string) :
  String.prefix "de" lang = true <-> exists rest, lang = "de" ++ rest.
Proof.
  split.
  - destruct lang as [| a [| b rest]]; cbn [String.prefix].
    + discriminate.
    + destruct (ascii_dec "d" a); discriminate.
    + destruct (ascii_dec "d" a) as [<- |]; [| discriminate].
      destruct (ascii_dec "e" b) as [<- |]; [| discriminate].
      intros _. now exists rest.
  - intros [rest ->]. cbn [append String.prefix].
    destruct (ascii_dec "d" "d"); [| congruence].
    destruct (ascii_dec "e" "e"); [| congruence].
    destruct rest; reflexivity.
Qed.

(** X15. The caption is German exactly for the browser languages that
    begin with the two lower-case letters "de" ("de", "de-AT", ...):
    then the labels are the German pair and the date is asked for in
    "de-de" and followed by " um <time> Uhr"; for every other language
    (also "DE" or the empty string) the labels are the English pair and
    the date is asked for in "en-us" with " at <time>".  Neither depends
    on the state or the clock. *)
Theorem caption_by_language
    (toLocaleDateString : string -> Z -> string)
    (toLocaleTimeString : Z -> string)
    (props : Props) (cells : Hooks) (now : Z) (lang : string) :
  let v := Countdown toLocaleDateString toLocaleTimeString props cells now lang in
  let target := endTimestamp props in
  ((exists rest, lang = "de" ++ rest) ->
     titling v = "Restliche Testzeit" /\
     subtitle v = ("Dieser Test endet am",
                   toLocaleDateString "de-de" target ++ " um " ++
                   toLocaleTimeString target ++ " Uhr")) /\
  (~ (exists rest, lang = "de" ++ rest) ->
     titling v = "Remaining test time" /\
     subtitle v = ("This test ends on",
                   toLocaleDateString "en-us" target ++ " at " ++
                   toLocaleTimeString target)).
Proof.
  cbv zeta. unfold Countdown.
  destruct (String.prefix "de" lang) eqn:E.
  - split; [intros _; split; reflexivity |].
    intros H. exfalso. apply H. now apply prefix_de.
  - split; [| intros _; split; reflexivity].
    intros H. apply prefix_de in H. congruence.
Qed.

Lemma caption_by_language_witness :
  titling (Countdown (fun _ _ => "") (fun _ => "")
             (mkProps 42000 None) (mkHooks RUNNING 3) 0 "de-AT")
  = "Restliche Testzeit" /\
  titling (Countdown (fun _ _ => "") (fun _ => "")
             (mkProps 42000 None) (mkHooks RUNNING 3) 0 "DE")
  = "Remaining test time".
Proof.
  split.
  - destruct (caption_by_language (fun _ _ => "") (fun _ => "")
                (mkProps 42000 None) (mkHooks RUNNING 3) 0 "de-AT") as [H _].
    apply H. now exists "-AT".
  - destruct (caption_by_language (fun _ _ => "") (fun _ => "")
                (mkProps 42000 None) (mkHooks RUNNING 3) 0 "DE") as [_ H].
    apply H. intros [rest E]. discriminate E.
Defined.

(** ** The interval over the life of the component *)

Lemma Hooks_eqb_state (a b : Hooks) :
  Hooks_eqb a b = true -> countdownState a = countdownState b.
Proof.
  unfold Hooks_eqb. intros H. apply andb_true_iff in H as [H _].
  destruct (countdownState a), (countdownState b); cbn in H; congruence.
Qed.

Lemma commit_tidy (w : World) (pending : option nat) (h : Timers) :
  match pending with
  | Some timer => exists c, live h = [mkInterval timer c 1000]
  | None => live h = []
  end ->
  tidy (commit w pending h).
Proof.
  intros H. unfold tidy, commit, setInterval, clearInterval.
  exists (nextTimer match pending with
                    | Some timer => clearInterval timer h
                    | None => h
                    end).
  destruct pending as [timer |]; cbn.
  - destruct H as [c ->]. cbn. rewrite Nat.eqb_refl. cbn.
    repeat split; lia.
  - rewrite H. repeat split; lia.
Qed.

Lemma settle_world (m : Mounted) (w' : World) (again : bool) :
  world (settle m w' again) = w'.
Proof.
  unfold settle, commit.
  destruct (Hooks_eqb (hooks (world m)) (hooks w') && negb again); reflexivity.
Qed.

Lemma settle_tidy (m : Mounted) (w' : World) (again : bool) :
  tidy m -> tidy (settle m w' again).
Proof.
  intros (timer & Hc & Hl & Hr & Hn). unfold settle.
  destruct (Hooks_eqb (hooks (world m)) (hooks w') && negb again) eqn:E.
  - apply andb_true_iff in E as [E _]. apply Hooks_eqb_state in E.
    exists timer. cbn. unfold stateOf in *. rewrite <- E.
    repeat split; assumption.
  - apply commit_tidy. rewrite Hc. now exists (stateOf (world m)).
Qed.

Lemma happen_tidy (props : Props) (m : Mounted) (h : Happening) :
  tidy m -> tidy (happen props m h).
Proof.
  intros T. destruct h as [timer now again | now again]; cbn [happen].
  - destruct (find _ (live (host m))); [now apply settle_tidy | exact T].
  - now apply settle_tidy.
Qed.

Lemma lifetime_tidy (props : Props) (l : list Happening) :
  forall m, tidy m -> tidy (lifetime props m l).
Proof.
  induction l as [| h l IH]; intros m T; [exact T |].
  unfold lifetime. cbn [fold_left]. apply IH. now apply happen_tidy.
Qed.

Lemma mountCountdown_tidy (props : Props) (now : Z) (firstTimer : nat) :
  tidy (mountCountdown props now firstTimer).
Proof.
  apply commit_tidy. reflexivity.
Qed.

Lemma happen_world (props : Props) (m : Mounted) (h : Happening) :
  tidy m ->
  world (happen props m h) =
    match h with
    | Fire timer clock _ =>
        if existsb (fun i => Nat.eqb (timerId i) timer) (live (host m))
        then step props (world m) (Tick clock)
        else world m
    | Press clock _ => step props (world m) (Click clock)
    end.
Proof.
  intros (timer & Hc & Hl & Hr & Hn).
  destruct h as [t clock again | clock again]; cbn [happen].
  - rewrite Hl. cbn [find existsb timerId].
    destruct (Nat.eqb timer t); cbn [orb]; [| reflexivity].
    rewrite settle_world. reflexivity.
  - rewrite settle_world, Hr. reflexivity.
Qed.

(** X16. From mounting on, whatever fires or is pressed and whether or
    not the library renders again when no cell changed, the component
    has exactly one live interval, of period 1000, whose callback closed
    over the present state (no stale closure), and the button's handler
    closed over it too; unmounting leaves no interval behind. *)
Theorem one_interval_at_a_time
    (props : Props) (now : Z) (firstTimer : nat) (l : list Happening) :
  let m := lifetime props (mountCountdown props now firstTimer) l in
  tidy m /\
  live (host (unmount m)) = [] /\
  cleanup (unmount m) = None.
Proof.
  cbv zeta.
  pose proof (lifetime_tidy props l _ (mountCountdown_tidy props now firstTimer)) as T.
  split; [exact T |]. split; [| reflexivity].
  destruct T as (timer & Hc & Hl & _). unfold unmount. cbn [host].
  rewrite Hc. unfold clearInterval. cbn [live]. rewrite Hl.
  cbn [filter timerId]. now rewrite Nat.eqb_refl.
Qed.

(** X17. The life-cycle machine refines the state machine: an interval
    that fires while live acts on the cells and the log as a [Tick] step
    does, one that was cleared does nothing, a press acts as a [Click]
    step; so every world of the mounted component is reached by some
    trace of ticks and clicks from [mount]. *)
Theorem lifecycle_refines_machine
    (props : Props) (now : Z) (firstTimer : nat) (l : list Happening) (h : Happening) :
  let m := lifetime props (mountCountdown props now firstTimer) l in
  world (happen props m h) =
    match h with
    | Fire timer clock _ =>
        if existsb (fun i => Nat.eqb (timerId i) timer) (live (host m))
        then step props (world m) (Tick clock)
        else world m
    | Press clock _ => step props (world m) (Click clock)
    end /\
  exists trace, world m = run props (mount props now) trace.
Proof.
  cbv zeta. split.
  - apply happen_world. apply lifetime_tidy. apply mountCountdown_tidy.
  - clear h. induction l as [| h l IH] using rev_ind.
    + exists []. reflexivity.
    + destruct IH as [trace IH].
      unfold lifetime in *. rewrite fold_left_app. cbn [fold_left].
      rewrite happen_world
        by (apply (lifetime_tidy props l); apply mountCountdown_tidy).
      fold (lifetime props (mountCountdown props now firstTimer) l).
      unfold lifetime. rewrite IH.
      destruct h as [t clock again | clock again].
      * destruct (existsb _ _).
        -- exists (trace ++ [Tick clock])%list. now rewrite run_app.
        -- now exists trace.
      * exists (trace ++ [Click clock])%list. now rewrite run_app.
Qed.

(** ** The application *)

(** The offset of the first text is an integer number of milliseconds:
    the product of the three doubles is the double of 151207200. *)
Example functionAppOffset_integral :
  PrimFloat.eqb functionAppOffset
                (PrimFloat.of_uint63 (Uint63.of_Z 151207200)) = true.
Proof. reflexivity. Qed.

Lemma no_callback_no_call (props : Props) (mounted : Z) (trace : list Event) :
  onTimedOut props = None ->
  invoked (run props (mount props mounted) trace) = [].
Proof.
  intros Hnone.
  destruct (run_invariant props trace _ (mount_invariant props mounted))
    as (_ & Hout & Hin).
  unfold settledCalls, failedCalls in *. rewrite Hnone in *.
  destruct (stateOf (run props (mount props mounted) trace)) eqn:E.
  - apply Hin. discriminate.
  - apply Hin. discriminate.
  - now destruct (Hout eq_refl).
Qed.

Lemma no_callback_tick (props : Props) (w : World) (now : Z) :
  onTimedOut props = None ->
  stateOf w = RUNNING ->
  (stateOf (step props w (Tick now)) = TIMEDOUT <-> endTimestamp props <= now).
Proof.
  intros Hnone Hrun. rewrite (step_tick_running props w now Hrun). cbv zeta.
  unfold callReturns. rewrite Hnone.
  destruct (Z.ltb_spec (calculateRemainingSeconds now (endTimestamp props)) 0)
    as [Hn | Hn]; unfold stateOf; cbn; split; intros H;
    try reflexivity; try discriminate.
  - now apply calculateRemainingSeconds_negative.
  - apply calculateRemainingSeconds_negative in H. lia.
Qed.

(** X18. Both texts of [App] pass no callback, so nothing is ever
    called, and a tick taken while RUNNING times out exactly from the
    target on: 151207200 ms (42 h 0 min 7.2 s) after the render of [App]
    for the first text, 42000 ms after it for the second.  Rendered
    less than 200 ms after [App] the first shows 42:00:07; the second
    shows 00: followed by the two digits of the whole seconds left,
    until its target. *)
Theorem App_targets
    (toLocaleDateString : string -> Z -> string)
    (toLocaleTimeString : Z -> string)
    (getTime mounted now : Z) (trace : list Event)
    (w : World) (cells : Hooks) (lang : string) :
  let first := FunctionApp.App getTime in
  let second := ArrowApp.App getTime in
  let shown := fun props =>
    timer (Countdown toLocaleDateString toLocaleTimeString props cells now lang) in
  (invoked (run first (mount first mounted) trace) = [] /\
   invoked (run second (mount second mounted) trace) = []) /\
  (stateOf w = RUNNING ->
     (stateOf (step first w (Tick now)) = TIMEDOUT <-> getTime + 151207200 <= now) /\
     (stateOf (step second w (Tick now)) = TIMEDOUT <-> getTime + 42000 <= now)) /\
  (getTime <= now < getTime + 200 -> shown first = JS.VStr "42:00:07") /\
  (getTime <= now <= getTime + 42000 ->
     shown second = JS.VStr ("00:" ++ twoDigits ((getTime + 42000 - now) / 1000))).
Proof.
  cbv zeta. split; [| split; [| split]].
  - split; apply no_callback_no_call; reflexivity.
  - intros Hrun.
    split.
    + apply (no_callback_tick (FunctionApp.App getTime) w now eq_refl Hrun).
    + apply (no_callback_tick (ArrowApp.App getTime) w now eq_refl Hrun).
  - intros H. rewrite timer_of_Countdown. cbn [FunctionApp.App endTimestamp].
    rewrite (calculateTimeDifference_fields now (getTime + 151207200)) by lia.
    cbv zeta.
    assert (E : (getTime + 151207200 - now) / 1000 = 151207).
    { symmetry.
      apply (Z.div_unique _ 1000 151207 (getTime + 200 - now)); lia. }
    rewrite E. reflexivity.
  - intros H. rewrite timer_of_Countdown. cbn [ArrowApp.App endTimestamp].
    rewrite (calculateTimeDifference_fields now (getTime + 42000)) by lia.
    cbv zeta. set (total := (getTime + 42000 - now) / 1000).
    assert (Hlo : 0 <= total) by (apply Z.div_pos; lia).
    assert (Hhi : total <= 42) by (apply Z.div_le_upper_bound; lia).
    rewrite (Z.div_small total 3600), (Z.mod_small total 3600) by lia.
    rewrite (Z.div_small total 60), (Z.mod_small total 60) by lia.
    rewrite formatDeltaTimeAsString_clockFace by (cbn; lia).
    unfold clockFace. cbn [hours minutes seconds Z.ltb Z.compare].
    rewrite (zeroPad2_below_100 total) by lia. reflexivity.
Qed.

Lemma App_targets_witness :
  timer (Countdown (fun _ _ => "") (fun _ => "")
           (FunctionApp.App 1000000) (mkHooks RUNNING 151207) 1000100 "en-US")
  = JS.VStr "42:00:07" /\
  timer (Countdown (fun _ _ => "") (fun _ => "")
           (ArrowApp.App 1000000) (mkHooks RUNNING 41) 1000100 "en-US")
  = JS.VStr "00:41" /\
  stateOf (step (ArrowApp.App 1000000) (mkWorld (mkHooks RUNNING 0) [])
             (Tick 1042000)) = TIMEDOUT /\
  stateOf (step (FunctionApp.App 1000000) (mkWorld (mkHooks RUNNING 0) [])
             (Tick 1042000)) = RUNNING.
Proof.
  destruct (App_targets (fun _ _ => "") (fun _ => "")
              1000000 1000000 1000100 [] (mkWorld (mkHooks RUNNING 0) [])
              (mkHooks RUNNING 151207) "en-US") as [_ [_ [Hfirst _]]].
  destruct (App_targets (fun _ _ => "") (fun _ => "")
              1000000 1000000 1000100 [] (mkWorld (mkHooks RUNNING 0) [])
              (mkHooks RUNNING 41) "en-US") as [_ [_ [_ Hsecond]]].
  destruct (App_targets (fun _ _ => "") (fun _ => "")
              1000000 1000000 1042000 [] (mkWorld (mkHooks RUNNING 0) [])
              (mkHooks RUNNING 41) "en-US") as [_ [Htick _]].
  destruct (Htick eq_refl) as [_ Hout].
  split; [apply Hfirst; lia |]. split; [apply Hsecond; lia |].
  split; [apply Hout; lia |]. reflexivity.
Defined.
